(** * Shallow embedding of the book store and resolvers of src/index.ts

    The module-level array [books] is the store: an ordered list of
    [Book] records.  Each resolver is a computation in a small
    state/error monad over that list; a thrown [GraphQLError] is the
    error branch and leaves the store as it was when the error was
    raised.  Optional JS fields ([undefined] or [null]) are [None]. *)

From Stdlib Require Import String List ZArith Bool Lia.
Import ListNotations.
Open Scope string_scope.
Open Scope list_scope.

(** ** Data model (typeDefs) *)

Inductive Genre : Type := NONE | FICTION | MYSTERY | FANTASY | ROMANCE.

Record Book : Type := mkBook {
  id : string;
  title : string;
  description : option string;
  isbn : option string;
  publisher : string;
  genre : Genre;
  publishYear : option Z;
  authorName : string;
  authorNationality : option string
}.

Record Author : Type := mkAuthor {
  name : string;
  nationality : option string
}.

(** Arguments of [addBook]; GraphQL omits arguments not supplied. *)
Record AddBookArgs : Type := mkAddBookArgs {
  a_title : string;
  a_description : option string;
  a_isbn : option string;
  a_publisher : string;
  a_genre : Genre;
  a_publishYear : option Z;
  a_authorName : string;
  a_authorNationality : option string
}.

(** Arguments of [updateBook]: only [id] is required. *)
Record UpdateBookArgs : Type := mkUpdateBookArgs {
  u_id : string;
  u_title : option string;
  u_description : option string;
  u_isbn : option string;
  u_publisher : option string;
  u_genre : option Genre;
  u_publishYear : option Z;
  u_authorName : option string;
  u_authorNationality : option string
}.

Record GraphQLError : Type := mkGraphQLError {
  message : string;
  code : string
}.

Definition Store := list Book.

(** ** A state/error monad over the store *)

Definition M (A : Type) : Type := Store -> (GraphQLError + A) * Store.

Definition ret {A} (x : A) : M A := fun s => (inr x, s).
Definition bind {A B} (m : M A) (f : A -> M B) : M B :=
  fun s => match m s with
           | (inl e, s') => (inl e, s')
           | (inr x, s') => f x s'
           end.
Definition throw {A} (e : GraphQLError) : M A := fun s => (inl e, s).
Definition get : M Store := fun s => (inr s, s).
Definition put (s : Store) : M unit := fun _ => (inr tt, s).

Notation "x <- m ;; k" := (bind m (fun x => k))
  (at level 61, m at next level, right associativity).
Notation "m ;;; k" := (bind m (fun _ => k))
  (at level 61, right associativity).

(** ** JS array helpers *)

(** [Array.prototype.find]: first element satisfying [p], else [undefined]. *)
Fixpoint find {A} (p : A -> bool) (l : list A) : option A :=
  match l with
  | [] => None
  | x :: r => if p x then Some x else find p r
  end.

(** [Array.prototype.findIndex]; [-1] is [None]. *)
Fixpoint findIndex {A} (p : A -> bool) (l : list A) : option nat :=
  match l with
  | [] => None
  | x :: r => if p x then Some 0 else option_map S (findIndex p r)
  end.

(** [a[i] = v]; only used with an index returned by [findIndex]. *)
Fixpoint set_nth {A} (i : nat) (v : A) (l : list A) : list A :=
  match l, i with
  | [], _ => []
  | _ :: r, 0 => v :: r
  | x :: r, S j => x :: set_nth j v r
  end.

(** [a.splice(i, 1)]: the removed elements and the array left behind. *)
Definition splice1 {A} (i : nat) (l : list A) : list A * list A :=
  (firstn 1 (skipn i l), (firstn i l ++ skipn (S i) l)%list).

(** JS truthiness of the optional arguments: [undefined], [null],
    [""] and [0] are falsy; every [Genre] name is a non-empty string. *)
Definition truthy_str (o : option string) : bool :=
  match o with Some s => negb (String.eqb s "") | None => false end.
Definition truthy_int (o : option Z) : bool :=
  match o with Some z => negb (Z.eqb z 0) | None => false end.
Definition truthy_genre (o : option Genre) : bool :=
  match o with Some _ => true | None => false end.

(** [args.f ? args.f : book.f] for a required field of the book. *)
Definition pick {A} (truthy : option A -> bool) (a : option A) (b : A) : A :=
  match a with Some x => if truthy a then x else b | None => b end.
(** [args.f ? args.f : book.f] for an optional field of the book. *)
Definition pick_opt {A} (truthy : option A -> bool) (a : option A) (b : option A)
  : option A :=
  if truthy a then a else b.

(** ** Seed data *)

Definition books_seed : Store := [
  mkBook "d26fd654-f4d4-4b98-91e5-6d8c9569aed6" "The Awakening"
    (Some "The Awakening es una novela de la escritora estadounidense Kate Chopin.")
    None "W W Norton & Co Inc" NONE (Some 1899%Z) "Kate Chopin" None;
  mkBook "35b19ead-3aa9-415e-a46d-6621e1604119" "City of Glass"
    (Some "Ciudad de cristal es el tercer libro de la saga Cazadores de Sombras, escrita por Cassandra Clare. Fue publicada originalmente en Estados Unidos.")
    (Some "978-0140097313") "Simon & Schuster" FANTASY (Some 2009%Z)
    "Paul Auster" (Some "Estadounidense")
].

(** ** Resolvers *)

Module Query.

Definition getBooks : M Store := books <- get ;; ret books.

Definition getBooksCount : M nat := books <- get ;; ret (length books).

(** [getBook(id: String)]: [id] may be absent; [undefined === s] never holds. *)
Definition getBook (arg_id : option string) : M (option Book) :=
  books <- get ;;
  ret (find (fun book => match arg_id with
                         | Some i => String.eqb (id book) i
                         | None => false
                         end) books).

End Query.

Module BookR.

Definition author (root : Book) : M Author :=
  ret (mkAuthor (authorName root) (authorNationality root)).

End BookR.

Module Mutation.

Definition title_not_unique : GraphQLError :=
  mkGraphQLError "Título es una valor único" "BAD_USER_INPUT".

(** [{ ...args, id: uuid() }]; [uuid] is the value [uuid()] returned. *)
Definition newBook (args : AddBookArgs) (uuid : string) : Book :=
  mkBook uuid (a_title args) (a_description args) (a_isbn args)
    (a_publisher args) (a_genre args) (a_publishYear args)
    (a_authorName args) (a_authorNationality args).

Definition addBook (args : AddBookArgs) (uuid : string) : M Book :=
  books <- get ;;
  match find (fun book => String.eqb (title book) (a_title args)) books with
  | Some _ => throw title_not_unique
  | None =>
      let nb := newBook args uuid in
      put (books ++ [nb])%list ;;;
      ret nb
  end.

Definition mergeBook (book : Book) (args : UpdateBookArgs) : Book :=
  mkBook (id book)
    (pick truthy_str (u_title args) (title book))
    (pick_opt truthy_str (u_description args) (description book))
    (pick_opt truthy_str (u_isbn args) (isbn book))
    (pick truthy_str (u_publisher args) (publisher book))
    (pick truthy_genre (u_genre args) (genre book))
    (pick_opt truthy_int (u_publishYear args) (publishYear book))
    (pick truthy_str (u_authorName args) (authorName book))
    (pick_opt truthy_str (u_authorNationality args) (authorNationality book)).

Definition updateBook (args : UpdateBookArgs) : M (option Book) :=
  books <- get ;;
  match findIndex (fun book => String.eqb (id book) (u_id args)) books with
  | None => ret None
  | Some i =>
      match nth_error books i with
      | None => ret None
      | Some book =>
          let updatedBook := mergeBook book args in
          put (set_nth i updatedBook books) ;;;
          ret (Some updatedBook)
      end
  end.

Definition deleteBook (arg_id : string) : M (option Book) :=
  books <- get ;;
  match findIndex (fun book => String.eqb (id book) arg_id) books with
  | None => ret None
  | Some i =>
      let (removed, rest) := splice1 i books in
      put rest ;;;
      ret (hd_error removed)
  end.

End Mutation.

Example seed_count : fst (Query.getBooksCount books_seed) = inr 2.
Proof. reflexivity. Qed.

(** ** Facts about the array helpers *)

Section ArrayFacts.
Context {A : Type} (p : A -> bool).

Lemma find_None_iff (l : list A) :
  find p l = None <-> forall x, In x l -> p x = false.
Proof.
  induction l as [|a r IH]; simpl; split.
  - intros _ x [].
  - reflexivity.
  - destruct (p a) eqn:Ha; [discriminate|].
    intros H x [<-|Hx]; [exact Ha|]. apply IH; assumption.
  - intros H. rewrite (H a (or_introl eq_refl)). apply IH.
    intros x Hx. apply H. right. exact Hx.
Qed.

Lemma find_Some_In (l : list A) (x : A) :
  find p l = Some x -> In x l /\ p x = true.
Proof.
  induction l as [|a r IH]; simpl; [discriminate|].
  destruct (p a) eqn:Ha.
  - intros [= <-]. auto.
  - intros H. destruct (IH H). auto.
Qed.

Lemma findIndex_None_iff (l : list A) :
  findIndex p l = None <-> forall x, In x l -> p x = false.
Proof.
  induction l as [|a r IH]; simpl; split.
  - intros _ x [].
  - reflexivity.
  - destruct (p a) eqn:Ha; [discriminate|].
    destruct (findIndex p r); [discriminate|].
    intros _ x [<-|Hx]; [exact Ha|]. apply IH; auto.
  - intros H. rewrite (H a (or_introl eq_refl)).
    rewrite (proj2 IH); [reflexivity|].
    intros x Hx. apply H. right. exact Hx.
Qed.

Lemma findIndex_middle (pre post : list A) (x : A) :
  (forall y, In y pre -> p y = false) -> p x = true ->
  findIndex p (pre ++ x :: post) = Some (length pre).
Proof.
  intros Hpre Hx. induction pre as [|a r IH]; simpl.
  - rewrite Hx. reflexivity.
  - rewrite (Hpre a (or_introl eq_refl)), IH; [reflexivity|].
    intros y Hy. apply Hpre. right. exact Hy.
Qed.

Lemma find_middle (pre post : list A) (x : A) :
  (forall y, In y pre -> p y = false) -> p x = true ->
  find p (pre ++ x :: post) = Some x.
Proof.
  intros Hpre Hx. induction pre as [|a r IH]; simpl.
  - rewrite Hx. reflexivity.
  - rewrite (Hpre a (or_introl eq_refl)), IH; [reflexivity|].
    intros y Hy. apply Hpre. right. exact Hy.
Qed.

(** The first element satisfying [p] splits the list. *)
Lemma first_match_split (l : list A) :
  (exists x, In x l /\ p x = true) ->
  exists pre x post, l = pre ++ x :: post /\ p x = true /\
                     forall y, In y pre -> p y = false.
Proof.
  induction l as [|a r IH]; simpl.
  - intros (x & [] & _).
  - intros Hex. destruct (p a) eqn:Ha.
    + exists [], a, r. repeat split; auto. intros y [].
    + destruct IH as (pre & x & post & -> & Hx & Hpre).
      { destruct Hex as (x & [<-|Hin] & Hx); [congruence|eauto]. }
      exists (a :: pre), x, post. repeat split; auto.
      intros y [<-|Hy]; auto.
Qed.

Lemma nth_error_middle' (pre post : list A) (x : A) :
  nth_error (pre ++ x :: post) (length pre) = Some x.
Proof. induction pre; simpl; auto. Qed.

Lemma set_nth_middle (pre post : list A) (x v : A) :
  set_nth (length pre) v (pre ++ x :: post) = pre ++ v :: post.
Proof. induction pre as [|a r IH]; simpl; [reflexivity|]. rewrite IH. reflexivity. Qed.

Lemma splice1_middle (pre post : list A) (x : A) :
  splice1 (length pre) (pre ++ x :: post) = ([x], pre ++ post).
Proof.
  unfold splice1. induction pre as [|a r IH]; simpl; [reflexivity|].
  injection IH as H1 H2. rewrite H1, H2. reflexivity.
Qed.

End ArrayFacts.

Lemma eqb_id_true (b : Book) (i : string) :
  String.eqb (id b) i = true <-> id b = i.
Proof. apply String.eqb_eq. Qed.

Lemma eqb_id_false (b : Book) (i : string) :
  String.eqb (id b) i = false <-> id b <> i.
Proof. apply String.eqb_neq. Qed.

Ltac run_M :=
  unfold Query.getBooks, Query.getBooksCount, Query.getBook, BookR.author,
    Mutation.addBook, Mutation.updateBook, Mutation.deleteBook,
    bind, get, put, ret, throw in *; cbn in *.

Definition sample_args (t : string) : AddBookArgs :=
  mkAddBookArgs t None None "Penguin" FICTION (Some 1985%Z) "Paul Auster" None.

(** ** Claims *)

(** C1: when some stored record already has [args.title], [addBook(args)]
    throws the [GraphQLError] with message "Título es una valor único" and
    code BAD_USER_INPUT, and the store (hence [getBooksCount()] and every
    record) is exactly as before. *)
Theorem addBook_duplicate_title_rejected (s : Store) (args : AddBookArgs)
    (uuid : string) (b : Book) :
  In b s -> title b = a_title args ->
  Mutation.addBook args uuid s =
    (inl (mkGraphQLError "Título es una valor único" "BAD_USER_INPUT"), s) /\
  fst (Query.getBooksCount (snd (Mutation.addBook args uuid s))) =
    fst (Query.getBooksCount s).
Proof.
  intros Hin Ht.
  assert (Hf : Mutation.addBook args uuid s =
            (inl (mkGraphQLError "Título es una valor único" "BAD_USER_INPUT"), s)).
  { run_M.
    destruct (find (fun book => String.eqb (title book) (a_title args)) s) eqn:Hf.
    - reflexivity.
    - apply find_None_iff with (x := b) in Hf; [|exact Hin].
      rewrite Ht, String.eqb_refl in Hf. discriminate. }
  split; [exact Hf|]. rewrite Hf. reflexivity.
Qed.

Lemma addBook_duplicate_title_rejected_witness :
  In (nth 1 books_seed (hd (mkBook "" "" None None "" NONE None "" None) books_seed))
     books_seed /\
  Mutation.addBook (sample_args "City of Glass") "u" books_seed =
    (inl (mkGraphQLError "Título es una valor único" "BAD_USER_INPUT"), books_seed).
Proof.
  assert (Hin : In (nth 1 books_seed (hd (mkBook "" "" None None "" NONE None "" None) books_seed))
                   books_seed) by (simpl; auto).
  split; [exact Hin|].
  exact (proj1 (addBook_duplicate_title_rejected books_seed (sample_args "City of Glass") "u"
                  _ Hin eq_refl)).
Defined.

(** C2: for an [id] matching no stored record, [getBook(id)],
    [updateBook({id, ...})] and [deleteBook(id)] return the absent result
    (no error) and leave the store unchanged. *)
Theorem not_found_returns_null (s : Store) (i : string) (args : UpdateBookArgs) :
  (forall b, In b s -> id b <> i) -> u_id args = i ->
  Query.getBook (Some i) s = (inr None, s) /\
  Mutation.updateBook args s = (inr None, s) /\
  Mutation.deleteBook i s = (inr None, s).
Proof.
  intros Hnot Hargs. subst i.
  assert (Hp : forall b, In b s -> String.eqb (id b) (u_id args) = false)
    by (intros b Hb; apply eqb_id_false, Hnot, Hb).
  run_M. split; [|split].
  - rewrite (proj2 (find_None_iff _ s) Hp). reflexivity.
  - rewrite (proj2 (findIndex_None_iff _ s) Hp). reflexivity.
  - rewrite (proj2 (findIndex_None_iff _ s) Hp). reflexivity.
Qed.

Lemma not_found_returns_null_witness :
  Query.getBook (Some "nope") books_seed = (inr None, books_seed) /\
  Mutation.updateBook (mkUpdateBookArgs "nope" (Some "T") None None None None None None None)
    books_seed = (inr None, books_seed) /\
  Mutation.deleteBook "nope" books_seed = (inr None, books_seed).
Proof.
  apply (not_found_returns_null books_seed "nope"
           (mkUpdateBookArgs "nope" (Some "T") None None None None None None None)).
  - intros b Hb. simpl in Hb.
    destruct Hb as [<-|[<-|[]]]; simpl; discriminate.
  - reflexivity.
Defined.

(** C4: in every store state [getBooksCount()] is the length of the
    array [getBooks()] returns. *)
Theorem getBooksCount_is_length (s : Store) :
  exists bs, fst (Query.getBooks s) = inr bs /\
             fst (Query.getBooksCount s) = inr (length bs).
Proof. exists s. run_M. split; reflexivity. Qed.

(** C9: the read resolvers [getBooks], [getBooksCount], [getBook] and
    [Book.author] leave the store exactly as they found it. *)
Theorem reads_preserve_store (s : Store) :
  snd (Query.getBooks s) = s /\
  snd (Query.getBooksCount s) = s /\
  (forall i, snd (Query.getBook i s) = s) /\
  (forall b, snd (BookR.author b s) = s).
Proof. run_M. repeat split; reflexivity. Qed.

(** C10: [addBook] throws exactly when some stored title is equal, as a
    string, to [args.title]; otherwise it performs no further validation
    and appends [{...args, id}] as given. *)
Theorem addBook_error_iff_title_taken (s : Store) (args : AddBookArgs)
    (uuid : string) :
  ((exists e, fst (Mutation.addBook args uuid s) = inl e) <->
   (exists b, In b s /\ title b = a_title args)) /\
  ((forall b, In b s -> title b <> a_title args) ->
   Mutation.addBook args uuid s =
     (inr (Mutation.newBook args uuid), s ++ [Mutation.newBook args uuid])).
Proof.
  run_M.
  destruct (find (fun book => String.eqb (title book) (a_title args)) s) eqn:Hf.
  - apply find_Some_In in Hf as [Hin Ht]. apply String.eqb_eq in Ht.
    split.
    + split; intros _.
      * exists b. auto.
      * eexists. reflexivity.
    + intros Hno. exfalso. exact (Hno b Hin Ht).
  - pose proof (proj1 (find_None_iff _ s) Hf) as Hno.
    split.
    + split.
      * intros [e He]. discriminate.
      * intros (b & Hin & Ht). specialize (Hno b Hin). cbv beta in Hno.
        rewrite Ht, String.eqb_refl in Hno. discriminate.
    + intros _. reflexivity.
Qed.

Example addBook_accepts_empty_title :
  Mutation.addBook (sample_args "") "u" books_seed =
    (inr (Mutation.newBook (sample_args "") "u"),
     books_seed ++ [Mutation.newBook (sample_args "") "u"]).
Proof. reflexivity. Qed.

Example addBook_accepts_case_variant :
  Mutation.addBook (sample_args "the awakening") "u" books_seed =
    (inr (Mutation.newBook (sample_args "the awakening") "u"),
     books_seed ++ [Mutation.newBook (sample_args "the awakening") "u"]).
Proof. reflexivity. Qed.

(** C3 (counterexample): the id of the new record is whatever [uuid()]
    returned; nothing checks it against the stored ids.  If it returns the
    id of "The Awakening", [addBook] still succeeds, and [getBook] on that
    id then returns "The Awakening", not the new record. *)
Lemma addBook_uuid_not_checked_counterexample :
  let uuid := "d26fd654-f4d4-4b98-91e5-6d8c9569aed6" in
  let r := Mutation.addBook (sample_args "New") uuid books_seed in
  fst r = inr (Mutation.newBook (sample_args "New") uuid) /\
  In uuid (map id books_seed) /\
  fst (Query.getBook (Some uuid) (snd r)) <>
    inr (Some (Mutation.newBook (sample_args "New") uuid)).
Proof.
  cbv zeta. split; [reflexivity|]. split; [simpl; auto|].
  vm_compute. discriminate.
Qed.

(** C3 (amended): when no stored record has [args.title], [addBook(args)]
    succeeds, appends [{...args, id: uuid()}] at the end (count grows by
    one) and returns it; when the [uuid()] value differs from every stored
    id, [getBook] on it returns that record, whose [author] is
    [{name: authorName, nationality: authorNationality}]. *)
Theorem addBook_appends_new_record (s : Store) (args : AddBookArgs)
    (uuid : string) :
  (forall b, In b s -> title b <> a_title args) ->
  let nb := mkBook uuid (a_title args) (a_description args) (a_isbn args)
              (a_publisher args) (a_genre args) (a_publishYear args)
              (a_authorName args) (a_authorNationality args) in
  Mutation.addBook args uuid s = (inr nb, s ++ [nb]) /\
  fst (Query.getBooksCount s) = inr (length s) /\
  fst (Query.getBooksCount (s ++ [nb])) = inr (S (length s)) /\
  ((forall b, In b s -> id b <> uuid) ->
   Query.getBook (Some uuid) (s ++ [nb]) = (inr (Some nb), s ++ [nb]) /\
   fst (BookR.author nb (s ++ [nb])) =
     inr (mkAuthor (a_authorName args) (a_authorNationality args))).
Proof.
  intros Hno nb.
  assert (Hadd : Mutation.addBook args uuid s = (inr nb, s ++ [nb])).
  { destruct (addBook_error_iff_title_taken s args uuid) as [_ H]. exact (H Hno). }
  split; [exact Hadd|]. run_M.
  split; [reflexivity|]. split; [rewrite length_app; simpl; f_equal; lia|].
  intros Hid. split; [|reflexivity].
  rewrite find_middle with (post := []).
  - reflexivity.
  - intros y Hy. apply eqb_id_false, Hid, Hy.
  - apply String.eqb_refl.
Qed.

Lemma addBook_appends_new_record_witness :
  Mutation.addBook (sample_args "New") "fresh-id" books_seed =
    (inr (Mutation.newBook (sample_args "New") "fresh-id"),
     books_seed ++ [Mutation.newBook (sample_args "New") "fresh-id"]) /\
  Query.getBook (Some "fresh-id") (books_seed ++ [Mutation.newBook (sample_args "New") "fresh-id"]) =
    (inr (Some (Mutation.newBook (sample_args "New") "fresh-id")),
     books_seed ++ [Mutation.newBook (sample_args "New") "fresh-id"]).
Proof.
  assert (Ht : forall b, In b books_seed -> title b <> a_title (sample_args "New")).
  { intros b Hb. simpl in Hb. destruct Hb as [<-|[<-|[]]]; simpl; discriminate. }
  assert (Hi : forall b, In b books_seed -> id b <> "fresh-id").
  { intros b Hb. simpl in Hb. destruct Hb as [<-|[<-|[]]]; simpl; discriminate. }
  destruct (addBook_appends_new_record books_seed (sample_args "New") "fresh-id" Ht)
    as (H1 & _ & _ & H4).
  split; [exact H1|]. exact (proj1 (H4 Hi)).
Defined.

(** C5 (counterexample): in a store holding two records with the same id,
    [deleteBook] removes only the first, and [getBook] on that id then
    still finds the second. *)
Lemma deleteBook_duplicate_id_counterexample :
  let b1 := mkBook "x" "A" None None "P" NONE None "N" None in
  let b2 := mkBook "x" "B" None None "P" NONE None "N" None in
  Mutation.deleteBook "x" [b1; b2] = (inr (Some b1), [b2]) /\
  Query.getBook (Some "x") [b2] = (inr (Some b2), [b2]).
Proof. split; reflexivity. Qed.

(** C5 (amended): when the store holds a record with [id], [deleteBook(id)]
    returns the first such record, removes exactly it (the records before
    and after it keep their order) so the count drops by one; when the
    stored ids are pairwise distinct, a later [getBook(id)] is absent. *)
Theorem deleteBook_removes_first_match (s : Store) (i : string) (b : Book) :
  In b s -> id b = i ->
  exists pre b0 post,
    s = pre ++ b0 :: post /\ id b0 = i /\ (forall y, In y pre -> id y <> i) /\
    Mutation.deleteBook i s = (inr (Some b0), pre ++ post) /\
    S (length (pre ++ post)) = length s /\
    (NoDup (map id s) -> Query.getBook (Some i) (pre ++ post) = (inr None, pre ++ post)).
Proof.
  intros Hin Hid.
  destruct (first_match_split (fun book => String.eqb (id book) i) s)
    as (pre & b0 & post & Hs & Hb0 & Hpre).
  { exists b. split; [exact Hin|]. apply eqb_id_true, Hid. }
  apply eqb_id_true in Hb0.
  assert (Hpre' : forall y, In y pre -> id y <> i)
    by (intros y Hy; apply eqb_id_false, Hpre, Hy).
  exists pre, b0, post. subst s.
  split; [reflexivity|]. split; [exact Hb0|]. split; [exact Hpre'|].
  split.
  { unfold Mutation.deleteBook, bind, get. cbv beta iota.
    rewrite findIndex_middle by (auto; apply eqb_id_true; exact Hb0).
    rewrite splice1_middle. reflexivity. }
  split.
  { rewrite !length_app. simpl. lia. }
  intros Hnd. run_M.
  rewrite (proj2 (find_None_iff _ (pre ++ post))); [reflexivity|].
  intros y Hy. apply eqb_id_false. intros Hy'.
  rewrite map_app in Hnd. simpl in Hnd. apply NoDup_remove_2 in Hnd.
  apply Hnd. rewrite <- map_app, Hb0, <- Hy'. apply in_map, Hy.
Qed.

Lemma deleteBook_removes_first_match_witness :
  Mutation.deleteBook "35b19ead-3aa9-415e-a46d-6621e1604119" books_seed =
    (inr (Some (nth 1 books_seed (hd (mkBook "" "" None None "" NONE None "" None) books_seed))),
     [hd (mkBook "" "" None None "" NONE None "" None) books_seed]).
Proof.
  destruct (deleteBook_removes_first_match books_seed "35b19ead-3aa9-415e-a46d-6621e1604119"
              (nth 1 books_seed (hd (mkBook "" "" None None "" NONE None "" None) books_seed))
              ltac:(simpl; auto) eq_refl)
    as (pre & b0 & post & Hs & Hb0 & Hpre & Hdel & _ & _).
  rewrite Hdel.
  destruct pre as [|p1 [|p2 pre]]; simpl in Hs; injection Hs; intros; subst.
  - discriminate.
  - reflexivity.
  - destruct pre; discriminate.
Defined.

(** [updateBook] rewrites the first record with [args.id] in place. *)
Lemma updateBook_first_match (pre post : list Book) (b0 : Book)
    (args : UpdateBookArgs) :
  (forall y, In y pre -> id y <> u_id args) -> id b0 = u_id args ->
  Mutation.updateBook args (pre ++ b0 :: post) =
    (inr (Some (Mutation.mergeBook b0 args)),
     pre ++ Mutation.mergeBook b0 args :: post).
Proof.
  intros Hpre Hb0. unfold Mutation.updateBook, bind, get. cbv beta iota.
  rewrite findIndex_middle.
  - rewrite nth_error_middle'. unfold put, ret.
    rewrite set_nth_middle. reflexivity.
  - intros y Hy. apply eqb_id_false, Hpre, Hy.
  - apply eqb_id_true, Hb0.
Qed.

Lemma first_id_split (s : Store) (i : string) (b : Book) :
  In b s -> id b = i ->
  exists pre b0 post, s = pre ++ b0 :: post /\ id b0 = i /\
                      forall y, In y pre -> id y <> i.
Proof.
  intros Hin Hid.
  destruct (first_match_split (fun book => String.eqb (id book) i) s)
    as (pre & b0 & post & Hs & Hb0 & Hpre).
  { exists b. split; [exact Hin|]. apply eqb_id_true, Hid. }
  exists pre, b0, post. split; [exact Hs|]. split; [apply eqb_id_true, Hb0|].
  intros y Hy. apply eqb_id_false, Hpre, Hy.
Qed.

(** C6: [updateBook({id, title: x})] with a non-empty [x] and no other
    argument rewrites, at its own position, the first record with [id]
    into the same record with only [title] set to [x]. *)
Theorem updateBook_title_only (s : Store) (i x : string) (b : Book) :
  In b s -> id b = i -> x <> "" ->
  exists pre b0 post,
    s = pre ++ b0 :: post /\ id b0 = i /\ (forall y, In y pre -> id y <> i) /\
    Mutation.updateBook
      (mkUpdateBookArgs i (Some x) None None None None None None None) s =
    (inr (Some (mkBook (id b0) x (description b0) (isbn b0) (publisher b0)
                  (genre b0) (publishYear b0) (authorName b0)
                  (authorNationality b0))),
     pre ++ mkBook (id b0) x (description b0) (isbn b0) (publisher b0)
              (genre b0) (publishYear b0) (authorName b0)
              (authorNationality b0) :: post).
Proof.
  intros Hin Hid Hx.
  destruct (first_id_split s i b Hin Hid) as (pre & b0 & post & Hs & Hb0 & Hpre).
  exists pre, b0, post. split; [exact Hs|]. split; [exact Hb0|].
  split; [exact Hpre|]. subst s.
  rewrite updateBook_first_match by assumption.
  unfold Mutation.mergeBook, pick, pick_opt, truthy_str; simpl.
  apply String.eqb_neq in Hx. rewrite Hx. reflexivity.
Qed.

Lemma updateBook_title_only_witness :
  Mutation.updateBook
    (mkUpdateBookArgs "35b19ead-3aa9-415e-a46d-6621e1604119" (Some "X")
       None None None None None None None) books_seed =
  (inr (Some (mkBook "35b19ead-3aa9-415e-a46d-6621e1604119" "X"
     (description (nth 1 books_seed (hd (mkBook "" "" None None "" NONE None "" None) books_seed)))
     (Some "978-0140097313") "Simon & Schuster" FANTASY (Some 2009%Z)
     "Paul Auster" (Some "Estadounidense"))),
   [hd (mkBook "" "" None None "" NONE None "" None) books_seed;
    mkBook "35b19ead-3aa9-415e-a46d-6621e1604119" "X"
     (description (nth 1 books_seed (hd (mkBook "" "" None None "" NONE None "" None) books_seed)))
     (Some "978-0140097313") "Simon & Schuster" FANTASY (Some 2009%Z)
     "Paul Auster" (Some "Estadounidense")]).
Proof.
  destruct (updateBook_title_only books_seed "35b19ead-3aa9-415e-a46d-6621e1604119" "X"
              (nth 1 books_seed (hd (mkBook "" "" None None "" NONE None "" None) books_seed))
              ltac:(simpl; auto) eq_refl ltac:(discriminate))
    as (pre & b0 & post & Hs & Hb0 & Hpre & Hup).
  rewrite Hup.
  destruct pre as [|p1 [|p2 pre]]; simpl in Hs; injection Hs; intros; subst.
  - discriminate.
  - reflexivity.
  - destruct pre; discriminate.
Defined.

(** The rule C7 states, field by field: a supplied truthy value replaces
    the stored one; an absent or falsy one ([""], [0]) keeps it. *)
Definition str_update (arg : option string) (old new : string) : Prop :=
  (forall x, arg = Some x -> x <> "" -> new = x) /\
  (arg = None \/ arg = Some "" -> new = old).
Definition opt_str_update (arg old new : option string) : Prop :=
  (forall x, arg = Some x -> x <> "" -> new = Some x) /\
  (arg = None \/ arg = Some "" -> new = old).
Definition int_update (arg old new : option Z) : Prop :=
  (forall z, arg = Some z -> z <> 0%Z -> new = Some z) /\
  (arg = None \/ arg = Some 0%Z -> new = old).
Definition genre_update (arg : option Genre) (old new : Genre) : Prop :=
  (forall g, arg = Some g -> new = g) /\ (arg = None -> new = old).

Lemma pick_str_update (a : option string) (b : string) :
  str_update a b (pick truthy_str a b).
Proof.
  unfold pick, truthy_str. split.
  - intros x -> Hx. apply String.eqb_neq in Hx. rewrite Hx. reflexivity.
  - intros [-> | ->]; reflexivity.
Qed.

Lemma pick_opt_str_update (a b : option string) :
  opt_str_update a b (pick_opt truthy_str a b).
Proof.
  unfold pick_opt, truthy_str. split.
  - intros x -> Hx. apply String.eqb_neq in Hx. rewrite Hx. reflexivity.
  - intros [-> | ->]; reflexivity.
Qed.

Lemma pick_opt_int_update (a b : option Z) :
  int_update a b (pick_opt truthy_int a b).
Proof.
  unfold pick_opt, truthy_int. split.
  - intros z -> Hz. apply Z.eqb_neq in Hz. rewrite Hz. reflexivity.
  - intros [-> | ->]; reflexivity.
Qed.

Lemma pick_genre_update (a : option Genre) (b : Genre) :
  genre_update a b (pick truthy_genre a b).
Proof.
  unfold pick, truthy_genre. split.
  - intros g ->. reflexivity.
  - intros ->. reflexivity.
Qed.

(** C7: on an existing id, [updateBook(args)] writes back (at the first
    match's position) a record that keeps its [id] and, for every
    updatable field, holds the supplied value exactly when it is present
    and truthy, and the prior value when it is absent, [""] or [0]. *)
Theorem updateBook_truthy_fields (s : Store) (args : UpdateBookArgs) (b : Book) :
  In b s -> id b = u_id args ->
  exists pre b0 post b',
    s = pre ++ b0 :: post /\ id b0 = u_id args /\
    (forall y, In y pre -> id y <> u_id args) /\
    Mutation.updateBook args s = (inr (Some b'), pre ++ b' :: post) /\
    id b' = id b0 /\
    str_update (u_title args) (title b0) (title b') /\
    opt_str_update (u_description args) (description b0) (description b') /\
    opt_str_update (u_isbn args) (isbn b0) (isbn b') /\
    str_update (u_publisher args) (publisher b0) (publisher b') /\
    genre_update (u_genre args) (genre b0) (genre b') /\
    int_update (u_publishYear args) (publishYear b0) (publishYear b') /\
    str_update (u_authorName args) (authorName b0) (authorName b') /\
    opt_str_update (u_authorNationality args) (authorNationality b0)
      (authorNationality b').
Proof.
  intros Hin Hid.
  destruct (first_id_split s (u_id args) b Hin Hid) as (pre & b0 & post & Hs & Hb0 & Hpre).
  exists pre, b0, post, (Mutation.mergeBook b0 args).
  subst s. repeat split; try assumption.
  all: try (rewrite updateBook_first_match by assumption; reflexivity).
  all: first [ apply pick_str_update | apply pick_opt_str_update
             | apply pick_opt_int_update | apply pick_genre_update
             | reflexivity ].
Qed.

Definition falsy_update_args : UpdateBookArgs :=
  mkUpdateBookArgs "35b19ead-3aa9-415e-a46d-6621e1604119" (Some "") (Some "")
    None (Some "Anagrama") None (Some 0%Z) None None.

Lemma updateBook_truthy_fields_witness :
  exists b',
    Mutation.updateBook falsy_update_args books_seed =
      (inr (Some b'), [hd (mkBook "" "" None None "" NONE None "" None) books_seed; b']) /\
    title b' = "City of Glass" /\ publisher b' = "Anagrama" /\
    publishYear b' = Some 2009%Z.
Proof.
  destruct (updateBook_truthy_fields books_seed falsy_update_args
              (nth 1 books_seed (hd (mkBook "" "" None None "" NONE None "" None) books_seed))
              ltac:(simpl; auto) eq_refl)
    as (pre & b0 & post & b' & Hs & Hb0 & Hpre & Hup & _ & Ht & _ & _ & Hp & _ & Hy & _).
  exists b'.
  destruct pre as [|p1 [|p2 pre]]; simpl in Hs; injection Hs; intros; subst.
  - discriminate.
  - split; [exact Hup|]. split; [|split].
    + apply (proj2 Ht). right. reflexivity.
    + apply (proj1 Hp). reflexivity. discriminate.
    + apply (proj2 Hy). right. reflexivity.
  - destruct pre; discriminate.
Defined.

(** C8: [updateBook] does not re-check title uniqueness: from the seed
    store, whose titles are distinct, renaming "City of Glass" to
    "The Awakening" succeeds and leaves two distinct records with the
    same title. *)
Theorem updateBook_can_duplicate_title :
  NoDup (map title books_seed) /\
  exists args b' s',
    Mutation.updateBook args books_seed = (inr (Some b'), s') /\
    exists b1 b2, In b1 s' /\ In b2 s' /\ b1 <> b2 /\ title b1 = title b2.
Proof.
  split.
  { simpl. constructor.
    - intros [H|[]]. discriminate H.
    - constructor; [intros []|constructor]. }
  exists (mkUpdateBookArgs "35b19ead-3aa9-415e-a46d-6621e1604119"
            (Some "The Awakening") None None None None None None None).
  eexists. eexists. split; [cbv; reflexivity|].
  eexists. eexists. split; [left; reflexivity|]. split; [right; left; reflexivity|].
  split; [discriminate|reflexivity].
Qed.

(** ** Further properties of the resolvers *)

Section MoreArrayFacts.
Context {A : Type} (p : A -> bool).

Lemma findIndex_Some_split (l : list A) (i : nat) :
  findIndex p l = Some i ->
  exists pre x post, l = pre ++ x :: post /\ length pre = i /\ p x = true /\
                     forall y, In y pre -> p y = false.
Proof.
  revert i. induction l as [|a r IH]; simpl; intros i H; [discriminate|].
  destruct (p a) eqn:Ha.
  - injection H as <-. exists [], a, r. repeat split; auto. intros y [].
  - destruct (findIndex p r) as [j|] eqn:Hr; [|discriminate].
    injection H as <-. destruct (IH j eq_refl) as (pre & x & post & -> & Hl & Hx & Hpre).
    exists (a :: pre), x, post. repeat split; simpl; auto.
    intros y [<-|Hy]; auto.
Qed.

Lemma find_Some_split (l : list A) (x : A) :
  find p l = Some x ->
  exists pre post, l = pre ++ x :: post /\ p x = true /\
                   forall y, In y pre -> p y = false.
Proof.
  induction l as [|a r IH]; simpl; intros H; [discriminate|].
  destruct (p a) eqn:Ha.
  - injection H as <-. exists [], r. repeat split; auto. intros y [].
  - destruct (IH H) as (pre & post & -> & Hx & Hpre).
    exists (a :: pre), post. repeat split; auto.
    intros y [<-|Hy]; auto.
Qed.

End MoreArrayFacts.

(** The three shapes the store can take after [addBook]. *)
Lemma addBook_store_cases (s : Store) (args : AddBookArgs) (uuid : string) :
  (exists b, In b s /\ title b = a_title args /\
             Mutation.addBook args uuid s = (inl Mutation.title_not_unique, s)) \/
  ((forall b, In b s -> title b <> a_title args) /\
   Mutation.addBook args uuid s =
     (inr (Mutation.newBook args uuid), s ++ [Mutation.newBook args uuid])).
Proof.
  run_M.
  destruct (find (fun book => String.eqb (title book) (a_title args)) s) eqn:Hf.
  - left. apply find_Some_In in Hf as [Hin Ht]. apply String.eqb_eq in Ht. eauto.
  - right. split; [|reflexivity].
    intros b Hb Ht. apply (proj1 (find_None_iff _ s)) with (x := b) in Hf; [|exact Hb].
    cbv beta in Hf. rewrite Ht, String.eqb_refl in Hf. discriminate.
Qed.

Lemma updateBook_store_cases (s : Store) (args : UpdateBookArgs) :
  ((forall b, In b s -> id b <> u_id args) /\
   Mutation.updateBook args s = (inr None, s)) \/
  (exists pre b0 post,
     s = pre ++ b0 :: post /\ id b0 = u_id args /\
     (forall y, In y pre -> id y <> u_id args) /\
     Mutation.updateBook args s =
       (inr (Some (Mutation.mergeBook b0 args)),
        pre ++ Mutation.mergeBook b0 args :: post)).
Proof.
  destruct (findIndex (fun book => String.eqb (id book) (u_id args)) s) as [i|] eqn:Hf.
  - right. apply findIndex_Some_split in Hf as (pre & b0 & post & -> & _ & Hb0 & Hpre).
    apply eqb_id_true in Hb0.
    assert (Hpre' : forall y, In y pre -> id y <> u_id args)
      by (intros y Hy; apply eqb_id_false, Hpre, Hy).
    exists pre, b0, post. repeat split; auto.
    apply updateBook_first_match; assumption.
  - left. pose proof (proj1 (findIndex_None_iff _ s) Hf) as Hno. split.
    + intros b Hb. apply eqb_id_false, Hno, Hb.
    + unfold Mutation.updateBook, bind, get. cbv beta iota. rewrite Hf. reflexivity.
Qed.

Lemma deleteBook_store_cases (s : Store) (i : string) :
  ((forall b, In b s -> id b <> i) /\ Mutation.deleteBook i s = (inr None, s)) \/
  (exists pre b0 post,
     s = pre ++ b0 :: post /\ id b0 = i /\ (forall y, In y pre -> id y <> i) /\
     Mutation.deleteBook i s = (inr (Some b0), pre ++ post)).
Proof.
  destruct (findIndex (fun book => String.eqb (id book) i) s) as [k|] eqn:Hf.
  - right. apply findIndex_Some_split in Hf as (pre & b0 & post & -> & <- & Hb0 & Hpre).
    exists pre, b0, post. split; [reflexivity|]. split; [apply eqb_id_true, Hb0|].
    split; [intros y Hy; apply eqb_id_false, Hpre, Hy|].
    unfold Mutation.deleteBook, bind, get. cbv beta iota.
    rewrite findIndex_middle by assumption. rewrite splice1_middle. reflexivity.
  - left. pose proof (proj1 (findIndex_None_iff _ s) Hf) as Hno. split.
    + intros b Hb. apply eqb_id_false, Hno, Hb.
    + unfold Mutation.deleteBook, bind, get. cbv beta iota. rewrite Hf. reflexivity.
Qed.

Lemma map_snoc_NoDup {B} (f : Book -> B) (s : Store) (b : Book) :
  NoDup (map f s) -> (forall y, In y s -> f y <> f b) -> NoDup (map f (s ++ [b])).
Proof.
  intros Hnd Hfresh. rewrite map_app. apply NoDup_app; [exact Hnd|constructor; [intros []|constructor]|].
  intros a Ha [Hb|[]]. apply in_map_iff in Ha as (y & Hy & Hin).
  apply (Hfresh y Hin). congruence.
Qed.

Lemma map_remove_NoDup {B} (f : Book -> B) (pre post : Store) (b : Book) :
  NoDup (map f (pre ++ b :: post)) -> NoDup (map f (pre ++ post)).
Proof. rewrite !map_app. simpl. apply NoDup_remove_1. Qed.

Lemma pick_idem {A} (t : option A -> bool) (a : option A) (b : A) :
  pick t a (pick t a b) = pick t a b.
Proof. unfold pick. destruct a; [destruct (t (Some a))|]; reflexivity. Qed.

Lemma pick_opt_idem {A} (t : option A -> bool) (a b : option A) :
  pick_opt t a (pick_opt t a b) = pick_opt t a b.
Proof. unfold pick_opt. destruct (t a); reflexivity. Qed.

Lemma mergeBook_idem (b : Book) (args : UpdateBookArgs) :
  Mutation.mergeBook (Mutation.mergeBook b args) args = Mutation.mergeBook b args.
Proof.
  unfold Mutation.mergeBook at 1 3. simpl.
  rewrite !pick_idem, !pick_opt_idem. reflexivity.
Qed.

(** [getBook(id)] returns [b] exactly when [b] is the first stored record
    whose id is [id]. *)
Theorem getBook_first_match_iff (s : Store) (i : string) (b : Book) :
  fst (Query.getBook (Some i) s) = inr (Some b) <->
  exists pre post, s = pre ++ b :: post /\ id b = i /\
                   forall y, In y pre -> id y <> i.
Proof.
  run_M. split.
  - intros H. injection H as H.
    apply find_Some_split in H as (pre & post & -> & Hb & Hpre).
    exists pre, post. split; [reflexivity|]. split; [apply eqb_id_true, Hb|].
    intros y Hy. apply eqb_id_false, Hpre, Hy.
  - intros (pre & post & -> & Hb & Hpre). rewrite find_middle.
    + reflexivity.
    + intros y Hy. apply eqb_id_false, Hpre, Hy.
    + apply eqb_id_true, Hb.
Qed.


(** [deleteBook(id)] returns exactly what [getBook(id)] would return on the
    same store. *)
Theorem deleteBook_returns_getBook (s : Store) (i : string) :
  fst (Mutation.deleteBook i s) = fst (Query.getBook (Some i) s).
Proof.
  destruct (deleteBook_store_cases s i) as [[Hno ->]|(pre & b0 & post & -> & Hb0 & Hpre & ->)].
  - run_M. rewrite (proj2 (find_None_iff _ s)); [reflexivity|].
    intros b Hb. apply eqb_id_false, Hno, Hb.
  - run_M. rewrite find_middle; [reflexivity| |].
    + intros y Hy. apply eqb_id_false, Hpre, Hy.
    + apply eqb_id_true, Hb0.
Qed.

(** [updateBook] never changes any record's id, nor the number or order
    of the records: the ids of the store are the same list before and
    after. *)
Theorem updateBook_keeps_ids (s : Store) (args : UpdateBookArgs) :
  map id (snd (Mutation.updateBook args s)) = map id s.
Proof.
  destruct (updateBook_store_cases s args)
    as [[_ ->]|(pre & b0 & post & -> & _ & _ & ->)]; [reflexivity|].
  simpl. rewrite !map_app. reflexivity.
Qed.

(** Running the same [updateBook(args)] twice has the effect of running it
    once: same result, same store. *)
Theorem updateBook_idempotent (s : Store) (args : UpdateBookArgs) :
  Mutation.updateBook args (snd (Mutation.updateBook args s)) =
  Mutation.updateBook args s.
Proof.
  destruct (updateBook_store_cases s args)
    as [[Hno Heq]|(pre & b0 & post & -> & Hb0 & Hpre & Heq)];
    rewrite Heq; simpl; [exact Heq|].
  rewrite updateBook_first_match by (simpl; assumption).
  rewrite mergeBook_idem. reflexivity.
Qed.

(** An [updateBook] whose optional arguments are all absent or falsy
    ([""], [0]) writes nothing and returns what [getBook(id)] returns. *)
Theorem updateBook_falsy_args_noop (s : Store) (args : UpdateBookArgs) :
  truthy_str (u_title args) = false ->
  truthy_str (u_description args) = false ->
  truthy_str (u_isbn args) = false ->
  truthy_str (u_publisher args) = false ->
  u_genre args = None ->
  truthy_int (u_publishYear args) = false ->
  truthy_str (u_authorName args) = false ->
  truthy_str (u_authorNationality args) = false ->
  Mutation.updateBook args s = (fst (Query.getBook (Some (u_id args)) s), s).
Proof.
  intros Ht Hd Hi Hp Hg Hy Ha Hn.
  assert (Hm : forall b, Mutation.mergeBook b args = b).
  { intros [bi bt bd bs bp bg by' ba bn].
    unfold Mutation.mergeBook, pick, pick_opt; simpl.
    rewrite Hd, Hi, Hy, Hn, Hg.
    destruct (u_title args); [rewrite Ht|];
    (destruct (u_publisher args); [rewrite Hp|]);
    (destruct (u_authorName args); [rewrite Ha|]); reflexivity. }
  destruct (updateBook_store_cases s args)
    as [[Hno ->]|(pre & b0 & post & -> & Hb0 & Hpre & ->)].
  - run_M. rewrite (proj2 (find_None_iff _ s)); [reflexivity|].
    intros b Hb. apply eqb_id_false, Hno, Hb.
  - rewrite Hm. run_M. rewrite find_middle; [reflexivity| |].
    + intros y Hyy. apply eqb_id_false, Hpre, Hyy.
    + apply eqb_id_true, Hb0.
Qed.

Lemma updateBook_falsy_args_noop_witness :
  Mutation.updateBook
    (mkUpdateBookArgs "35b19ead-3aa9-415e-a46d-6621e1604119" (Some "") None
       (Some "") None None (Some 0%Z) (Some "") None) books_seed =
  (fst (Query.getBook (Some "35b19ead-3aa9-415e-a46d-6621e1604119") books_seed),
   books_seed).
Proof.
  apply (updateBook_falsy_args_noop books_seed
           (mkUpdateBookArgs "35b19ead-3aa9-415e-a46d-6621e1604119" (Some "") None
              (Some "") None None (Some 0%Z) (Some "") None));
  reflexivity.
Defined.

(** After a successful [updateBook(args)], [getBook(args.id)] returns the
    record [updateBook] returned. *)
Theorem getBook_after_updateBook (s : Store) (args : UpdateBookArgs) (b' : Book) :
  fst (Mutation.updateBook args s) = inr (Some b') ->
  fst (Query.getBook (Some (u_id args)) (snd (Mutation.updateBook args s))) =
    inr (Some b').
Proof.
  destruct (updateBook_store_cases s args)
    as [[Hno ->]|(pre & b0 & post & -> & Hb0 & Hpre & ->)]; simpl; [discriminate|].
  intros H. injection H as <-. run_M. rewrite find_middle; [reflexivity| |].
  - intros y Hy. apply eqb_id_false, Hpre, Hy.
  - apply eqb_id_true. exact Hb0.
Qed.

Lemma getBook_after_updateBook_witness :
  fst (Query.getBook (Some "d26fd654-f4d4-4b98-91e5-6d8c9569aed6")
         (snd (Mutation.updateBook
                 (mkUpdateBookArgs "d26fd654-f4d4-4b98-91e5-6d8c9569aed6" None None
                    (Some "978-0393960570") None None None None None) books_seed))) =
  inr (Some (mkBook "d26fd654-f4d4-4b98-91e5-6d8c9569aed6" "The Awakening"
    (Some "The Awakening es una novela de la escritora estadounidense Kate Chopin.")
    (Some "978-0393960570") "W W Norton & Co Inc" NONE (Some 1899%Z) "Kate Chopin" None)).
Proof.
  apply (getBook_after_updateBook books_seed
           (mkUpdateBookArgs "d26fd654-f4d4-4b98-91e5-6d8c9569aed6" None None
              (Some "978-0393960570") None None None None None)).
  reflexivity.
Defined.

(** [deleteBook] keeps the stored ids pairwise distinct. *)
Theorem deleteBook_keeps_distinct_ids (s : Store) (i : string) :
  NoDup (map id s) -> NoDup (map id (snd (Mutation.deleteBook i s))).
Proof.
  intros Hnd. destruct (deleteBook_store_cases s i)
    as [[_ ->]|(pre & b0 & post & -> & _ & _ & ->)]; simpl; [exact Hnd|].
  eapply map_remove_NoDup. exact Hnd.
Qed.

Lemma deleteBook_keeps_distinct_ids_witness :
  NoDup (map id (snd (Mutation.deleteBook "d26fd654-f4d4-4b98-91e5-6d8c9569aed6" books_seed))).
Proof.
  apply deleteBook_keeps_distinct_ids.
  simpl. constructor; [intros [H|[]]; discriminate H|].
  constructor; [intros []|constructor].
Defined.

(** [addBook] keeps the stored ids pairwise distinct as long as the value
    [uuid()] returns is not already a stored id. *)
Theorem addBook_keeps_distinct_ids (s : Store) (args : AddBookArgs) (uuid : string) :
  NoDup (map id s) -> (forall b, In b s -> id b <> uuid) ->
  NoDup (map id (snd (Mutation.addBook args uuid s))).
Proof.
  intros Hnd Hfresh.
  destruct (addBook_store_cases s args uuid) as [(b & _ & _ & ->)|[_ ->]];
    simpl; [exact Hnd|].
  apply map_snoc_NoDup; [exact Hnd|]. exact Hfresh.
Qed.

Lemma addBook_keeps_distinct_ids_witness :
  NoDup (map id (snd (Mutation.addBook (sample_args "New") "fresh-id" books_seed))).
Proof.
  apply addBook_keeps_distinct_ids.
  - simpl. constructor; [intros [H|[]]; discriminate H|].
    constructor; [intros []|constructor].
  - intros b Hb. simpl in Hb. destruct Hb as [<-|[<-|[]]]; simpl; discriminate.
Defined.

(** [addBook] keeps the stored titles pairwise distinct: it either throws
    and leaves the store alone, or appends a title not yet stored. *)
Theorem addBook_keeps_distinct_titles (s : Store) (args : AddBookArgs) (uuid : string) :
  NoDup (map title s) -> NoDup (map title (snd (Mutation.addBook args uuid s))).
Proof.
  intros Hnd.
  destruct (addBook_store_cases s args uuid) as [(b & _ & _ & ->)|[Hno ->]];
    simpl; [exact Hnd|].
  apply map_snoc_NoDup; [exact Hnd|]. exact Hno.
Qed.

Lemma addBook_keeps_distinct_titles_witness :
  NoDup (map title (snd (Mutation.addBook (sample_args "New") "fresh-id" books_seed))).
Proof.
  apply addBook_keeps_distinct_titles.
  simpl. constructor; [intros [H|[]]; discriminate H|].
  constructor; [intros []|constructor].
Defined.

(** [deleteBook] keeps the stored titles pairwise distinct. *)
Theorem deleteBook_keeps_distinct_titles (s : Store) (i : string) :
  NoDup (map title s) -> NoDup (map title (snd (Mutation.deleteBook i s))).
Proof.
  intros Hnd. destruct (deleteBook_store_cases s i)
    as [[_ ->]|(pre & b0 & post & -> & _ & _ & ->)]; simpl; [exact Hnd|].
  eapply map_remove_NoDup. exact Hnd.
Qed.

Lemma deleteBook_keeps_distinct_titles_witness :
  NoDup (map title (snd (Mutation.deleteBook "d26fd654-f4d4-4b98-91e5-6d8c9569aed6" books_seed))).
Proof.
  apply deleteBook_keeps_distinct_titles.
  simpl. constructor; [intros [H|[]]; discriminate H|].
  constructor; [intros []|constructor].
Defined.

(** Round trip: a successful [addBook] whose new id is not already stored,
    followed by [deleteBook] of that id, returns the added record and
    restores the store exactly. *)
Theorem addBook_then_deleteBook (s : Store) (args : AddBookArgs) (uuid : string) :
  (forall b, In b s -> title b <> a_title args) ->
  (forall b, In b s -> id b <> uuid) ->
  Mutation.deleteBook uuid (snd (Mutation.addBook args uuid s)) =
    (inr (Some (Mutation.newBook args uuid)), s).
Proof.
  intros Ht Hi.
  destruct (addBook_store_cases s args uuid) as [(b & Hb & Htb & _)|[_ ->]].
  { exfalso. exact (Ht b Hb Htb). }
  simpl. unfold Mutation.deleteBook, bind, get. cbv beta iota.
  rewrite findIndex_middle with (post := []).
  - rewrite splice1_middle, app_nil_r. reflexivity.
  - intros y Hy. apply eqb_id_false, Hi, Hy.
  - apply String.eqb_refl.
Qed.

Lemma addBook_then_deleteBook_witness :
  Mutation.deleteBook "fresh-id"
    (snd (Mutation.addBook (sample_args "New") "fresh-id" books_seed)) =
  (inr (Some (Mutation.newBook (sample_args "New") "fresh-id")), books_seed).
Proof.
  apply addBook_then_deleteBook.
  - intros b Hb. simpl in Hb. destruct Hb as [<-|[<-|[]]]; simpl; discriminate.
  - intros b Hb. simpl in Hb. destruct Hb as [<-|[<-|[]]]; simpl; discriminate.
Defined.

(** After a successful [addBook], a second [addBook] with the same title
    (any other arguments, any id) throws BAD_USER_INPUT and changes
    nothing. *)
Theorem addBook_same_title_twice (s : Store) (args args' : AddBookArgs)
    (uuid uuid' : string) :
  (forall b, In b s -> title b <> a_title args) ->
  a_title args' = a_title args ->
  Mutation.addBook args' uuid' (snd (Mutation.addBook args uuid s)) =
    (inl Mutation.title_not_unique, snd (Mutation.addBook args uuid s)).
Proof.
  intros Ht Heq.
  destruct (addBook_store_cases s args uuid) as [(b & Hb & Htb & _)|[_ ->]].
  { exfalso. exact (Ht b Hb Htb). }
  simpl.
  destruct (addBook_store_cases (s ++ [Mutation.newBook args uuid]) args' uuid')
    as [(b & _ & _ & H)|[Hno _]]; [exact H|].
  exfalso. apply (Hno (Mutation.newBook args uuid)).
  - apply in_or_app. right. left. reflexivity.
  - simpl. symmetry. exact Heq.
Qed.

Lemma addBook_same_title_twice_witness :
  Mutation.addBook (sample_args "New") "id-2"
    (snd (Mutation.addBook (sample_args "New") "id-1" books_seed)) =
  (inl Mutation.title_not_unique,
   snd (Mutation.addBook (sample_args "New") "id-1" books_seed)).
Proof.
  apply addBook_same_title_twice.
  - intros b Hb. simpl in Hb. destruct Hb as [<-|[<-|[]]]; simpl; discriminate.
  - reflexivity.
Defined.

(** ** Sequences of requests against the shared store *)

(** One resolver call, as the server dispatches it; [OAddBook] carries the
    value [uuid()] returns during that call. *)
Inductive Op : Type :=
| OGetBooks
| OGetBooksCount
| OGetBook (arg_id : option string)
| OAuthor (root : Book)
| OAddBook (args : AddBookArgs) (uuid : string)
| OUpdateBook (args : UpdateBookArgs)
| ODeleteBook (arg_id : string).

Definition exec (o : Op) (s : Store) : Store :=
  match o with
  | OGetBooks => snd (Query.getBooks s)
  | OGetBooksCount => snd (Query.getBooksCount s)
  | OGetBook i => snd (Query.getBook i s)
  | OAuthor b => snd (BookR.author b s)
  | OAddBook a u => snd (Mutation.addBook a u s)
  | OUpdateBook a => snd (Mutation.updateBook a s)
  | ODeleteBook i => snd (Mutation.deleteBook i s)
  end.

Fixpoint run (ops : list Op) (s : Store) : Store :=
  match ops with
  | [] => s
  | o :: r => run r (exec o s)
  end.

(** Every [uuid()] value is new to the store it is added to. *)
Fixpoint fresh_uuids (ops : list Op) (s : Store) : bool :=
  match ops with
  | [] => true
  | o :: r =>
      match o with
      | OAddBook _ u => negb (existsb (fun b => String.eqb (id b) u) s)
      | _ => true
      end && fresh_uuids r (exec o s)
  end.

Definition no_updates (ops : list Op) : bool :=
  forallb (fun o => match o with OUpdateBook _ => false | _ => true end) ops.

(** Any sequence of requests keeps the stored ids pairwise distinct,
    provided each [uuid()] value is not already stored when it is used. *)
Theorem run_keeps_distinct_ids (ops : list Op) (s : Store) :
  NoDup (map id s) -> fresh_uuids ops s = true -> NoDup (map id (run ops s)).
Proof.
  revert s. induction ops as [|o r IH]; intros s Hnd Hf; simpl in *; [exact Hnd|].
  apply andb_prop in Hf as [Ho Hr]. apply IH; [|exact Hr].
  destruct o; simpl; try (run_M; exact Hnd).
  - destruct (addBook_store_cases s args uuid) as [(b & _ & _ & ->)|[_ ->]];
      simpl; [exact Hnd|].
    apply map_snoc_NoDup; [exact Hnd|]. simpl.
    intros y Hy Heq. apply negb_true_iff in Ho.
    assert (Hex : existsb (fun b => String.eqb (id b) uuid) s = true).
    { apply existsb_exists. exists y. split; [exact Hy|]. apply String.eqb_eq, Heq. }
    congruence.
  - destruct (updateBook_store_cases s args)
      as [[_ ->]|(pre & b0 & post & -> & _ & _ & ->)]; simpl; [exact Hnd|].
    rewrite !map_app in *. exact Hnd.
  - destruct (deleteBook_store_cases s arg_id)
      as [[_ ->]|(pre & b0 & post & -> & _ & _ & ->)]; simpl; [exact Hnd|].
    eapply map_remove_NoDup. exact Hnd.
Qed.

Definition sample_ops : list Op :=
  [OAddBook (sample_args "New") "fresh-id";
   OUpdateBook (mkUpdateBookArgs "fresh-id" (Some "Moon Palace") None None None
                  None (Some 1989%Z) None None);
   ODeleteBook "d26fd654-f4d4-4b98-91e5-6d8c9569aed6";
   OGetBooksCount].

Lemma run_keeps_distinct_ids_witness :
  NoDup (map id (run sample_ops books_seed)).
Proof.
  apply run_keeps_distinct_ids; [|reflexivity].
  simpl. constructor; [intros [H|[]]; discriminate H|].
  constructor; [intros []|constructor].
Defined.

(** Without [updateBook] calls, any sequence of requests keeps the stored
    titles pairwise distinct; [addBook]'s check is the only guard. *)
Theorem run_without_updates_keeps_distinct_titles (ops : list Op) (s : Store) :
  NoDup (map title s) -> no_updates ops = true -> NoDup (map title (run ops s)).
Proof.
  revert s. induction ops as [|o r IH]; intros s Hnd Hu; simpl in *; [exact Hnd|].
  apply andb_prop in Hu as [Ho Hr]. apply IH; [|exact Hr].
  destruct o; simpl; try (run_M; exact Hnd); [| discriminate |].
  - destruct (addBook_store_cases s args uuid) as [(b & _ & _ & ->)|[Hno ->]];
      simpl; [exact Hnd|].
    apply map_snoc_NoDup; [exact Hnd|exact Hno].
  - destruct (deleteBook_store_cases s arg_id)
      as [[_ ->]|(pre & b0 & post & -> & _ & _ & ->)]; simpl; [exact Hnd|].
    eapply map_remove_NoDup. exact Hnd.
Qed.

Lemma run_without_updates_keeps_distinct_titles_witness :
  NoDup (map title (run [OAddBook (sample_args "New") "id-1";
                         OAddBook (sample_args "New") "id-2";
                         ODeleteBook "id-1";
                         OAddBook (sample_args "The Awakening") "id-3"] books_seed)).
Proof.
  apply run_without_updates_keeps_distinct_titles; [|reflexivity].
  simpl. constructor; [intros [H|[]]; discriminate H|].
  constructor; [intros []|constructor].
Defined.
